(** * virtio-pmem: attach, detach and the flush queue

    A shallow embedding of [drivers/nvdimm/virtio_pmem.c]: queue
    initialisation ([init_vq]), attach ([virtio_pmem_probe]) and detach
    ([virtio_pmem_remove]).  The kernel services the driver calls are
    external to the file; their answers are gathered in a [host] record and
    their effects on the device are written out as small state transformers
    that also log what was called, so that ordering properties can be read
    off the log. *)

From Stdlib Require Import ZArith Lia.
From Stdlib Require Import Strings.Byte.
From stdpp Require Import gmap list strings.

Local Open Scope Z_scope.

(** ** Machine integers and kernel constants *)

Definition wrap (bits : Z) (z : Z) : Z := z mod 2 ^ bits.

(** Two's complement reading of a [bits]-wide value. *)
Definition signed (bits : Z) (z : Z) : Z :=
  let m := wrap bits z in
  if m <? 2 ^ (bits - 1) then m else m - 2 ^ bits.

Definition u64 : Z -> Z := wrap 64.

Definition EINVAL : Z := 22.
Definition ENOMEM : Z := 12.
Definition ENXIO : Z := 6.
Definition MAX_ERRNO : Z := 4095.
Definition NUMA_NO_NODE : Z := -1.
Definition NULL : Z := 0.
Definition VIRTIO_PMEM_SHMCAP_ID_PMEM_REGION : Z := 0.

(** [IS_ERR] and [PTR_ERR] of linux/err.h: the pointer is cast to
    [unsigned long] and compared with [(unsigned long)-MAX_ERRNO], so the top
    [MAX_ERRNO] addresses encode negative errnos; [PTR_ERR] casts to [long]. *)
Definition IS_ERR (p : Z) : bool := u64 (- MAX_ERRNO) <=? u64 p.
Definition PTR_ERR (p : Z) : Z := signed 64 p.

(** ** Little-endian fields of the configuration structure *)

Definition byte_val (b : byte) : Z := Z.of_N (Byte.to_N b).

Fixpoint le_to_cpu (bs : list byte) : Z :=
  match bs with
  | [] => 0
  | b :: rest => byte_val b + 256 * le_to_cpu rest
  end.

Definition byte_of_Z (z : Z) : byte :=
  match Byte.of_N (Z.to_N (z mod 256)) with
  | Some b => b
  | None => x00
  end.

Fixpoint cpu_to_le (n : nat) (z : Z) : list byte :=
  match n with
  | O => []
  | S n' => byte_of_Z z :: cpu_to_le n' (z / 256)
  end.

(** [struct virtio_pmem_config { __le64 start; __le64 size; }] *)
Definition offsetof_start : Z := 0.
Definition offsetof_size : Z := 8.

(** ** Data *)

Inductive spinlock := SPIN_ZEROED | SPIN_UNLOCKED | SPIN_LOCKED.

(** One flush request waiting on the device: its sequence token. *)
Definition request := nat.

(** A [struct list_head]: all-zero memory is not a list; an initialised head
    carries its members in insertion order. *)
Inductive list_head := LIST_ZEROED | LIST_HEAD (members : list request).

Record virtio_shm_region := { shm_addr : Z; shm_len : Z }.

Inductive nd_region_flag := ND_REGION_PAGEMAP | ND_REGION_ASYNC.

Inductive flush_callback := no_flush | async_pmem_flush.

(** [struct resource] together with [struct nd_region_desc], as far as the
    driver fills them in. *)
Record nd_region_desc := {
  res_start : Z;
  res_end : Z;
  numa_node : Z;
  target_node : Z;
  flush : flush_callback;
  flags : list nd_region_flag
}.

Record virtio_pmem := {
  req_vq : Z;
  nvdimm_bus : Z;
  provider_name : string;
  pmem_lock : spinlock;
  req_list : list_head;
  start : Z;
  size : Z
}.

(** What [devm_kzalloc] hands back: every field zero. *)
Definition zeroed_vpmem : virtio_pmem :=
  {| req_vq := NULL; nvdimm_bus := NULL; provider_name := "";
     pmem_lock := SPIN_ZEROED; req_list := LIST_ZEROED;
     start := 0; size := 0 |}.

Record nd_region := { rg_handle : Z; rg_bus : Z; rg_desc : nd_region_desc }.

(** The virtio device and everything the kernel holds on its behalf. *)
Record device := {
  priv : option virtio_pmem;      (* vdev->priv, the driver's context *)
  drvdata : Z;                    (* dev_get_drvdata(&vdev->dev) *)
  driver_ok : bool;               (* status bit set by virtio_device_ready *)
  vqs : list Z;                   (* virtqueues allocated for the device *)
  buses : list Z;                 (* registered nvdimm bus handles *)
  regions : list nd_region        (* registered pmem regions *)
}.

Inductive event :=
| EvDevErr (msg : string)
| EvDevDbg (msg : string)
| EvKzalloc (ok : bool)
| EvFindSingleVq (name : string) (p : Z)
| EvSpinLockInit
| EvInitListHead
| EvGetShmRegion (id : Z) (r : option virtio_shm_region)
| EvConfigRead (offset len : Z)
| EvBusRegister (p : Z)
| EvSetDrvdata (p : Z)
| EvDeviceReady
| EvRegionCreate (desc : nd_region_desc) (p : Z)
| EvResetDevice
| EvBusUnregister (bus : Z)
| EvDelVqs.

(** A running system: the device now, and the log of calls made so far, each
    paired with the device as it was when the call was made. *)
Record world := { dev : device; trace : list (event * device) }.

Definition boot (d : device) : world := {| dev := d; trace := [] |}.

(** The answers of the services the driver consumes. *)
Record host := {
  config_get : option (Z -> byte);          (* vdev->config->get, None = NULL *)
  kzalloc_ok : bool;
  find_single_vq : Z;
  get_shm_region : Z -> option virtio_shm_region;
  bus_register : Z;
  memory_add_physaddr_to_nid : Z -> Z;
  phys_to_target_node : Z -> Z;
  pmem_region_create : nd_region_desc -> Z
}.

(** ** Field updates *)

Definition set_req_vq (p : Z) (v : virtio_pmem) : virtio_pmem :=
  {| req_vq := p; nvdimm_bus := nvdimm_bus v; provider_name := provider_name v;
     pmem_lock := pmem_lock v; req_list := req_list v;
     start := start v; size := size v |}.

Definition set_nvdimm_bus (p : Z) (v : virtio_pmem) : virtio_pmem :=
  {| req_vq := req_vq v; nvdimm_bus := p; provider_name := provider_name v;
     pmem_lock := pmem_lock v; req_list := req_list v;
     start := start v; size := size v |}.

Definition set_provider_name (s : string) (v : virtio_pmem) : virtio_pmem :=
  {| req_vq := req_vq v; nvdimm_bus := nvdimm_bus v; provider_name := s;
     pmem_lock := pmem_lock v; req_list := req_list v;
     start := start v; size := size v |}.

Definition set_pmem_lock (l : spinlock) (v : virtio_pmem) : virtio_pmem :=
  {| req_vq := req_vq v; nvdimm_bus := nvdimm_bus v; provider_name := provider_name v;
     pmem_lock := l; req_list := req_list v;
     start := start v; size := size v |}.

Definition set_req_list (l : list_head) (v : virtio_pmem) : virtio_pmem :=
  {| req_vq := req_vq v; nvdimm_bus := nvdimm_bus v; provider_name := provider_name v;
     pmem_lock := pmem_lock v; req_list := l;
     start := start v; size := size v |}.

Definition set_start (z : Z) (v : virtio_pmem) : virtio_pmem :=
  {| req_vq := req_vq v; nvdimm_bus := nvdimm_bus v; provider_name := provider_name v;
     pmem_lock := pmem_lock v; req_list := req_list v;
     start := z; size := size v |}.

Definition set_size (z : Z) (v : virtio_pmem) : virtio_pmem :=
  {| req_vq := req_vq v; nvdimm_bus := nvdimm_bus v; provider_name := provider_name v;
     pmem_lock := pmem_lock v; req_list := req_list v;
     start := start v; size := z |}.

Definition set_priv (o : option virtio_pmem) (d : device) : device :=
  {| priv := o; drvdata := drvdata d; driver_ok := driver_ok d;
     vqs := vqs d; buses := buses d; regions := regions d |}.

Definition set_drvdata (p : Z) (d : device) : device :=
  {| priv := priv d; drvdata := p; driver_ok := driver_ok d;
     vqs := vqs d; buses := buses d; regions := regions d |}.

Definition set_driver_ok (b : bool) (d : device) : device :=
  {| priv := priv d; drvdata := drvdata d; driver_ok := b;
     vqs := vqs d; buses := buses d; regions := regions d |}.

Definition set_vqs (l : list Z) (d : device) : device :=
  {| priv := priv d; drvdata := drvdata d; driver_ok := driver_ok d;
     vqs := l; buses := buses d; regions := regions d |}.

Definition set_buses (l : list Z) (d : device) : device :=
  {| priv := priv d; drvdata := drvdata d; driver_ok := driver_ok d;
     vqs := vqs d; buses := l; regions := regions d |}.

Definition set_regions (l : list nd_region) (d : device) : device :=
  {| priv := priv d; drvdata := drvdata d; driver_ok := driver_ok d;
     vqs := vqs d; buses := buses d; regions := l |}.

(** A store through the [vpmem] pointer: the object is the one [vdev->priv]
    points to, so the update is seen through every alias. *)
Definition vpmem_store (f : virtio_pmem -> virtio_pmem) (w : world) : world :=
  {| dev := set_priv (f <$> priv (dev w)) (dev w); trace := trace w |}.

Definition vpmem_load {A} (f : virtio_pmem -> A) (dflt : A) (w : world) : A :=
  match priv (dev w) with
  | Some v => f v
  | None => dflt
  end.

(** The requests linked on the device's list; none while there is no list. *)
Definition pending (d : device) : list request :=
  match priv d with
  | Some v => match req_list v with LIST_HEAD l => l | LIST_ZEROED => [] end
  | None => []
  end.

(** ** Kernel services *)

(** A call into the kernel: logged with the device as it was on entry. *)
Definition call (e : event) (effect : device -> device) (w : world) : world :=
  {| dev := effect (dev w); trace := trace w ++ [(e, dev w)] |}.

Definition dev_err (msg : string) : world -> world := call (EvDevErr msg) id.
Definition dev_dbg (msg : string) : world -> world := call (EvDevDbg msg) id.

Definition devm_kzalloc (h : host) (w : world) : bool * world :=
  (kzalloc_ok h, call (EvKzalloc (kzalloc_ok h)) id w).

(** Modelled from the spec: [virtio_find_single_vq], the single named
    command-queue allocation primitive.  It answers a queue pointer or an
    errno encoded in a pointer; only a real queue is kept by the device. *)
Definition virtio_find_single_vq (h : host) (name : string) (w : world) : Z * world :=
  let p := find_single_vq h in
  (p, call (EvFindSingleVq name p)
        (fun d => set_vqs (if IS_ERR p then vqs d else p :: vqs d) d) w).

Definition spin_lock_init : world -> world :=
  call EvSpinLockInit (fun d => set_priv (set_pmem_lock SPIN_UNLOCKED <$> priv d) d).

Definition INIT_LIST_HEAD : world -> world :=
  call EvInitListHead (fun d => set_priv (set_req_list (LIST_HEAD []) <$> priv d) d).

(** Modelled from the spec: [virtio_get_shm_region], the capability query
    returning address and length for a shared-memory region, or absent. *)
Definition virtio_get_shm_region (h : host) (id : Z) (w : world)
  : option virtio_shm_region * world :=
  (get_shm_region h id, call (EvGetShmRegion id (get_shm_region h id)) (fun d => d) w).

(** Modelled from the spec: the [virtio_cread_le] macro on a 64-bit member,
    a configuration-space read of eight bytes at the member's offset,
    decoded as a little-endian integer. *)
Definition virtio_cread_le (get : Z -> byte) (offset : Z) (w : world) : Z * world :=
  (le_to_cpu (get <$> seqZ offset 8), call (EvConfigRead offset 8) (fun d => d) w).

(** Modelled from the spec: [nvdimm_bus_register], the bus registration
    primitive yielding an opaque handle, NULL on failure. *)
Definition nvdimm_bus_register (h : host) (w : world) : Z * world :=
  let p := bus_register h in
  (p, call (EvBusRegister p)
        (fun d => set_buses (if p =? NULL then buses d else p :: buses d) d) w).

Definition dev_set_drvdata (p : Z) : world -> world :=
  call (EvSetDrvdata p) (set_drvdata p).

Definition virtio_device_ready : world -> world :=
  call EvDeviceReady (set_driver_ok true).

Definition virtio_reset_device : world -> world :=
  call EvResetDevice (set_driver_ok false).

(** Modelled from the spec: [nvdimm_pmem_region_create], the region-create
    primitive returning an opaque region handle, NULL on failure. *)
Definition nvdimm_pmem_region_create (h : host) (bus : Z) (desc : nd_region_desc)
    (w : world) : Z * world :=
  let p := pmem_region_create h desc in
  (p, call (EvRegionCreate desc p)
        (fun d => set_regions
                    (if p =? NULL then regions d
                     else {| rg_handle := p; rg_bus := bus; rg_desc := desc |}
                            :: regions d) d) w).

(** Modelled from the spec: [nvdimm_bus_unregister].  The bus handle and the
    regions registered on it go away; the driver's context is not touched. *)
Definition nvdimm_bus_unregister (bus : Z) : world -> world :=
  call (EvBusUnregister bus)
    (fun d =>
       set_regions (filter (fun r => rg_bus r ≠ bus) (regions d))
         (set_buses (filter (fun b => b ≠ bus) (buses d)) d)).

(** [vdev->config->del_vqs]: every virtqueue of the device is released. *)
Definition del_vqs : world -> world := call EvDelVqs (set_vqs []).

(** ** The driver *)

Definition init_vq (h : host) (w : world) : Z * world :=
  let '(p, w) := virtio_find_single_vq h "flush_queue" w in
  let w := vpmem_store (set_req_vq p) w in
  if IS_ERR (vpmem_load req_vq NULL w) then
    (signed 32 (PTR_ERR (vpmem_load req_vq NULL w)), w)
  else
    let w := spin_lock_init w in
    let w := INIT_LIST_HEAD w in
    (0, w).

(** The exits of [virtio_pmem_probe]; each label falls through to the next. *)
Definition out_err (err : Z) (w : world) : Z * world := (err, w).

Definition out_vq (err : Z) (w : world) : Z * world :=
  out_err err (del_vqs w).

Definition out_nd (err : Z) (w : world) : Z * world :=
  let w := virtio_reset_device w in
  let w := nvdimm_bus_unregister (vpmem_load nvdimm_bus NULL w) w in
  out_vq err w.

Definition virtio_pmem_probe (h : host) (w : world) : Z * world :=
  match config_get h with
  | None => (- EINVAL, dev_err "virtio_pmem_probe failure: config access disabled" w)
  | Some get =>
    let '(ok, w) := devm_kzalloc h w in
    if negb ok then out_err (- ENOMEM) w
    else
      let w := {| dev := set_priv (Some zeroed_vpmem) (dev w); trace := trace w |} in
      let '(err, w) := init_vq h w in
      if negb (err =? 0) then
        out_err err (dev_err "failed to initialize virtio pmem vq's" w)
      else
        let '(have_shm_region, w) :=
          virtio_get_shm_region h VIRTIO_PMEM_SHMCAP_ID_PMEM_REGION w in
        let w :=
          match have_shm_region with
          | Some pmem_region =>
              let w := vpmem_store (set_start (shm_addr pmem_region)) w in
              vpmem_store (set_size (shm_len pmem_region)) w
          | None =>
              let '(v, w) := virtio_cread_le get offsetof_start w in
              let w := vpmem_store (set_start v) w in
              let '(v, w) := virtio_cread_le get offsetof_size w in
              vpmem_store (set_size v) w
          end in
        let res_start := vpmem_load start 0 w in
        let res_end := u64 (vpmem_load start 0 w + vpmem_load size 0 w - 1) in
        let w := vpmem_store (set_provider_name "virtio-pmem") w in
        let '(bus, w) := nvdimm_bus_register h w in
        let w := vpmem_store (set_nvdimm_bus bus) w in
        if vpmem_load nvdimm_bus NULL w =? NULL then
          out_vq (- ENXIO) (dev_err "failed to register device with nvdimm_bus" w)
        else
          let w := dev_set_drvdata (vpmem_load nvdimm_bus NULL w) w in
          let numa := memory_add_physaddr_to_nid h res_start in
          let target := phys_to_target_node h res_start in
          let '(target, w) :=
            if target =? NUMA_NO_NODE
            then (numa, dev_dbg "changing target node" w)
            else (target, w) in
          let ndr_desc :=
            {| res_start := res_start; res_end := res_end;
               numa_node := numa; target_node := target;
               flush := async_pmem_flush;
               flags := [ND_REGION_PAGEMAP; ND_REGION_ASYNC] |} in
          let w := virtio_device_ready w in
          let '(nd_region, w) :=
            nvdimm_pmem_region_create h (vpmem_load nvdimm_bus NULL w) ndr_desc w in
          if nd_region =? NULL then
            out_nd (- ENXIO) (dev_err "failed to create nvdimm region" w)
          else (0, w)
  end.

Definition virtio_pmem_remove (w : world) : world :=
  let nvdimm_bus := drvdata (dev w) in
  let w := nvdimm_bus_unregister nvdimm_bus w in
  let w := del_vqs w in
  virtio_reset_device w.

(** ** Reading the log *)

Definition events (w : world) : list event := map fst (trace w).

(** [P pre x] holds at every entry [x] of the log, [pre] being what was
    logged before it. *)
Definition at_each {A} (tr : list A) (P : list A -> A -> Prop) : Prop :=
  forall pre x post, tr = pre ++ x :: post -> P pre x.

Definition is_config_read (e : event) : bool :=
  match e with EvConfigRead _ _ => true | _ => false end.

Definition is_dev_err (e : event) : bool :=
  match e with EvDevErr _ => true | _ => false end.

Inductive resource := RQueue | RBus | RReady | RRegion.

Definition acquired (e : event) : option resource :=
  match e with
  | EvFindSingleVq _ p => if IS_ERR p then None else Some RQueue
  | EvBusRegister p => if p =? NULL then None else Some RBus
  | EvDeviceReady => Some RReady
  | EvRegionCreate _ p => if p =? NULL then None else Some RRegion
  | _ => None
  end.

Definition released (e : event) : option resource :=
  match e with
  | EvDelVqs => Some RQueue
  | EvBusUnregister _ => Some RBus
  | EvResetDevice => Some RReady
  | _ => None
  end.

(** A device as the virtio core presents it to the driver's probe: no driver
    context, not yet marked ready, nothing allocated or registered for it. *)
Definition unbound (d : device) : Prop :=
  priv d = None /\ driver_ok d = false /\
  vqs d = [] /\ buses d = [] /\ regions d = [].

Definition fresh_device : device :=
  {| priv := None; drvdata := NULL; driver_ok := false;
     vqs := []; buses := []; regions := [] |}.

(** The attach failure the specification calls ConfigUnavailable: the exit
    that reports disabled configuration access and returns [-EINVAL]. *)
Definition ConfigUnavailable (r : Z * world) : Prop :=
  r.1 = - EINVAL /\
  EvDevErr "virtio_pmem_probe failure: config access disabled" ∈ events r.2.

(** ** Sample hosts *)

(** Configuration space holding the given bytes from offset zero. *)
Definition config_bytes (bs : list byte) : Z -> byte :=
  fun off => default x00 (bs !! Z.to_nat off).

(** A host with legacy configuration fields only: 8 KiB at 4 KiB. *)
Definition host_legacy : host :=
  {| config_get := Some (config_bytes (cpu_to_le 8 4096 ++ cpu_to_le 8 8192));
     kzalloc_ok := true;
     find_single_vq := 65536;
     get_shm_region := fun _ => None;
     bus_register := 131072;
     memory_add_physaddr_to_nid := fun _ => 0;
     phys_to_target_node := fun _ => NUMA_NO_NODE;
     pmem_region_create := fun _ => 196608 |}.

(** A host advertising the pmem capability region, 1 MiB at 4 GiB, whose
    configuration fields hold something else. *)
Definition host_shm : host :=
  {| config_get := Some (config_bytes (cpu_to_le 8 4096 ++ cpu_to_le 8 8192));
     kzalloc_ok := true;
     find_single_vq := 65536;
     get_shm_region := fun id =>
       if id =? VIRTIO_PMEM_SHMCAP_ID_PMEM_REGION
       then Some {| shm_addr := 2 ^ 32; shm_len := 2 ^ 20 |} else None;
     bus_register := 131072;
     memory_add_physaddr_to_nid := fun _ => 0;
     phys_to_target_node := fun _ => 1;
     pmem_region_create := fun _ => 196608 |}.

(** The same capability region behind a transport without [config->get]. *)
Definition host_shm_no_get : host :=
  {| config_get := None;
     kzalloc_ok := true;
     find_single_vq := 65536;
     get_shm_region := get_shm_region host_shm;
     bus_register := 131072;
     memory_add_physaddr_to_nid := fun _ => 0;
     phys_to_target_node := fun _ => 1;
     pmem_region_create := fun _ => 196608 |}.

(** The capability region again, on a host whose region creation fails. *)
Definition host_no_region : host :=
  {| config_get := config_get host_shm;
     kzalloc_ok := true;
     find_single_vq := 65536;
     get_shm_region := get_shm_region host_shm;
     bus_register := 131072;
     memory_add_physaddr_to_nid := fun _ => 0;
     phys_to_target_node := fun _ => 1;
     pmem_region_create := fun _ => NULL |}.

(** A host whose capability region ends past the top of the address space:
    two bytes at the last 64-bit address. *)
Definition host_wrap : host :=
  {| config_get := config_get host_shm;
     kzalloc_ok := true;
     find_single_vq := 65536;
     get_shm_region := fun _ => Some {| shm_addr := 2 ^ 64 - 1; shm_len := 2 |};
     bus_register := 131072;
     memory_add_physaddr_to_nid := fun _ => 0;
     phys_to_target_node := fun _ => 1;
     pmem_region_create := fun _ => 196608 |}.

(** Neither source of the address range can be reached: the transport has no
    configuration read and the host advertises no pmem capability region. *)
Definition neither_source_reachable (h : host) : Prop :=
  config_get h = None /\
  get_shm_region h VIRTIO_PMEM_SHMCAP_ID_PMEM_REGION = None.

(** An attached device with one flush request still linked on its list. *)
Definition attached_with_request : world :=
  vpmem_store (set_req_list (LIST_HEAD [7%nat]))
    (boot (dev (virtio_pmem_probe host_shm (boot fresh_device)).2)).

(** ** The flush queue *)

Inductive outcome := FlushOk | IoError (code : Z) | Quiesced.

(** The device context at work: besides the lock and the request list of
    [virtio_pmem], the next sequence token, the descriptors placed on the
    command queue, the completion slots filled so far and the callers woken,
    in order. *)
Record flush_state := {
  ctx : virtio_pmem;
  next_token : nat;
  ring : list request;
  slots : gmap nat outcome;
  woken : list request
}.

Definition flush_init (v : virtio_pmem) : flush_state :=
  {| ctx := v; next_token := 0; ring := []; slots := ∅; woken := [] |}.

Definition spin_lock (v : virtio_pmem) : option virtio_pmem :=
  match pmem_lock v with
  | SPIN_UNLOCKED => Some (set_pmem_lock SPIN_LOCKED v)
  | _ => None
  end.

Definition spin_unlock (v : virtio_pmem) : virtio_pmem :=
  set_pmem_lock SPIN_UNLOCKED v.

Definition members (v : virtio_pmem) : option (list request) :=
  match req_list v with
  | LIST_HEAD l => Some l
  | LIST_ZEROED => None
  end.

(** The pending collection of a flush state; empty while there is no list. *)
Definition flush_pending (s : flush_state) : list request :=
  default [] (members (ctx s)).

(** Modelled from the spec: the submission half of [async_pmem_flush], which
    the driver registers as the region's flush callback but which lives
    outside this file.  Under the device lock a request with a fresh token is
    appended to the pending collection and its descriptor is placed on the
    command queue; the lock is released before the caller waits. *)
Definition submit_flush (s : flush_state) : option (request * flush_state) :=
  v ← spin_lock (ctx s);
  l ← members v;
  let t := next_token s in
  let v := set_req_list (LIST_HEAD (l ++ [t])) v in
  Some (t, {| ctx := spin_unlock v; next_token := S t; ring := ring s ++ [t];
              slots := slots s; woken := woken s |}).

(** Modelled from the spec: [virtio_pmem_host_ack], the completion callback
    the driver passes to [virtio_find_single_vq] but which lives outside this
    file, for one finished descriptor.  Under the device lock the pending
    request with the descriptor's token is looked up, removed and given the
    reported status, and its caller is woken; a token that is not pending is
    dropped silently. *)
Definition host_ack (c : request * outcome) (s : flush_state) : option flush_state :=
  v ← spin_lock (ctx s);
  l ← members v;
  if decide (c.1 ∈ l) then
    let v := set_req_list (LIST_HEAD (filter (fun t => t ≠ c.1) l)) v in
    Some {| ctx := spin_unlock v; next_token := next_token s; ring := ring s;
            slots := <[c.1 := c.2]> (slots s); woken := woken s ++ [c.1] |}
  else
    Some {| ctx := spin_unlock v; next_token := next_token s; ring := ring s;
            slots := slots s; woken := woken s |}.

(** [n] submissions one after the other; the tokens handed out, in order. *)
Fixpoint submit_many (n : nat) (s : flush_state) : option (list request * flush_state) :=
  match n with
  | O => Some ([], s)
  | S n' =>
      '(t, s) ← submit_flush s;
      '(ts, s) ← submit_many n' s;
      Some (t :: ts, s)
  end.

(** Completions delivered in the order of the list. *)
Fixpoint host_acks (cs : list (request * outcome)) (s : flush_state) : option flush_state :=
  match cs with
  | [] => Some s
  | c :: cs' => s ← host_ack c s; host_acks cs' s
  end.

(** A context as [init_vq] leaves it. *)
Definition queue_ready_vpmem : virtio_pmem :=
  set_req_list (LIST_HEAD []) (set_pmem_lock SPIN_UNLOCKED (set_req_vq 65536 zeroed_vpmem)).

(** What the flush queue keeps true between operations: the lock is free,
    the pending tokens are distinct and were handed out earlier, and neither
    a pending token nor one still to be handed out has a completion
    recorded. *)
Definition flush_inv (s : flush_state) : Prop :=
  pmem_lock (ctx s) = SPIN_UNLOCKED /\
  exists l, req_list (ctx s) = LIST_HEAD l /\ NoDup l /\
    (forall t, t ∈ l -> (t < next_token s)%nat) /\
    (forall t, t ∈ l \/ (next_token s <= t)%nat -> slots s !! t = None).

(** [ERR_PTR] of linux/err.h: a negative errno cast to a pointer. *)
Definition ERR_PTR (e : Z) : Z := u64 e.

(** A host whose queue allocation fails with [-ENOMEM]. *)
Definition host_no_queue : host :=
  {| config_get := config_get host_legacy;
     kzalloc_ok := true;
     find_single_vq := ERR_PTR (- ENOMEM);
     get_shm_region := fun _ => None;
     bus_register := 131072;
     memory_add_physaddr_to_nid := fun _ => 0;
     phys_to_target_node := fun _ => NUMA_NO_NODE;
     pmem_region_create := fun _ => 196608 |}.

(** A host whose bus registration fails. *)
Definition host_no_bus : host :=
  {| config_get := config_get host_legacy;
     kzalloc_ok := true;
     find_single_vq := 65536;
     get_shm_region := fun _ => None;
     bus_register := NULL;
     memory_add_physaddr_to_nid := fun _ => 0;
     phys_to_target_node := fun _ => NUMA_NO_NODE;
     pmem_region_create := fun _ => 196608 |}.

(** A host advertising an empty capability region at address zero. *)
Definition host_empty_region : host :=
  {| config_get := config_get host_legacy;
     kzalloc_ok := true;
     find_single_vq := 65536;
     get_shm_region := fun _ => Some {| shm_addr := 0; shm_len := 0 |};
     bus_register := 131072;
     memory_add_physaddr_to_nid := fun _ => 0;
     phys_to_target_node := fun _ => 1;
     pmem_region_create := fun _ => 196608 |}.

(** The part of a device that attach reads: everything except the driver
    context and the driver data, which attach overwrites. *)
Definition same_resources (d1 d2 : device) : Prop :=
  driver_ok d1 = driver_ok d2 /\ vqs d1 = vqs d2 /\
  buses d1 = buses d2 /\ regions d1 = regions d2.

(** ** Arithmetic of error pointers and little-endian fields *)

Lemma u64_range z : 0 <= u64 z < 2 ^ 64.
Proof. unfold u64, wrap. apply Z.mod_pos_bound. lia. Qed.

Lemma u64_small z : 0 <= z < 2 ^ 64 -> u64 z = z.
Proof. intros H. unfold u64, wrap. apply Z.mod_small. exact H. Qed.

Lemma IS_ERR_errno p :
  IS_ERR p = true -> - MAX_ERRNO <= signed 32 (PTR_ERR p) < 0.
Proof.
  unfold IS_ERR, PTR_ERR, MAX_ERRNO. intros H. apply Z.leb_le in H.
  pose proof (u64_range p) as Hp.
  assert (Hm : u64 (Z.opp 4095) = 2 ^ 64 - 4095) by reflexivity.
  rewrite Hm in H. clear Hm.
  assert (E : signed 64 p = u64 p - 2 ^ 64).
  { unfold signed. fold (u64 p). change (64 - 1) with 63.
    destruct (Z.ltb_spec (u64 p) (2 ^ 63)); lia. }
  rewrite E. unfold signed, wrap. change (32 - 1) with 31.
  replace ((u64 p - 2 ^ 64) mod 2 ^ 32) with (u64 p - 2 ^ 64 + 2 ^ 32).
  - destruct (Z.ltb_spec (u64 p - 2 ^ 64 + 2 ^ 32) (2 ^ 31)); lia.
  - apply Z.mod_unique with (q := -1); lia.
Qed.

Lemma IS_ERR_nonzero p : IS_ERR p = true -> (signed 32 (PTR_ERR p) =? 0) = false.
Proof. intros H. apply IS_ERR_errno in H. apply Z.eqb_neq. lia. Qed.

Lemma byte_val_range b : 0 <= byte_val b < 256.
Proof.
  unfold byte_val. pose proof (Byte.to_N_bounded b) as H.
  lia.
Qed.

Lemma byte_val_of_Z z : byte_val (byte_of_Z z) = z mod 256.
Proof.
  unfold byte_val, byte_of_Z.
  pose proof (Z.mod_pos_bound z 256 ltac:(lia)) as Hb.
  destruct (Byte.of_N (Z.to_N (z mod 256))) as [b|] eqn:E.
  - apply Byte.to_of_N in E. rewrite E. lia.
  - apply Byte.of_N_None_iff in E. lia.
Qed.

Lemma le_to_cpu_range bs : 0 <= le_to_cpu bs < 256 ^ Z.of_nat (length bs).
Proof.
  induction bs as [|b bs IH]; simpl length.
  - simpl. lia.
  - rewrite Nat2Z.inj_succ, Z.pow_succ_r by lia.
    cbn [le_to_cpu]. pose proof (byte_val_range b). lia.
Qed.

Lemma le_to_cpu_to_le n z :
  0 <= z < 256 ^ Z.of_nat n -> le_to_cpu (cpu_to_le n z) = z.
Proof.
  revert z. induction n as [|n IH]; intros z Hz.
  - simpl in *. lia.
  - rewrite Nat2Z.inj_succ, Z.pow_succ_r in Hz by lia.
    cbn [cpu_to_le le_to_cpu]. rewrite byte_val_of_Z, IH.
    + pose proof (Z.div_mod z 256 ltac:(lia)). lia.
    + split; [apply Z.div_pos; lia | apply Z.div_lt_upper_bound; lia].
Qed.

(** ** Reasoning about logs *)

Lemma at_each_nil {A} (P : list A -> A -> Prop) : at_each [] P.
Proof. intros pre x post H. destruct pre; discriminate H. Qed.

Lemma at_each_cons {A} (a : A) (tr : list A) (P : list A -> A -> Prop) :
  P [] a -> at_each tr (fun pre x => P (a :: pre) x) -> at_each (a :: tr) P.
Proof.
  intros Ha Htr pre x post H. destruct pre as [|b pre]; simpl in H.
  - injection H as -> _. exact Ha.
  - injection H as -> H. exact (Htr pre x post H).
Qed.

(** Walk down a log that is known entry by entry. *)
Ltac walk_log :=
  repeat (apply at_each_cons; [ | ]); [ .. | apply at_each_nil ].

(** ** Symbolic execution of the driver *)

Ltac run_model :=
  cbv beta iota zeta delta
    [virtio_pmem_probe virtio_pmem_remove init_vq out_nd out_vq out_err
     call vpmem_store vpmem_load boot dev trace events
     devm_kzalloc virtio_find_single_vq spin_lock_init INIT_LIST_HEAD
     virtio_get_shm_region virtio_cread_le nvdimm_bus_register
     dev_set_drvdata virtio_device_ready virtio_reset_device
     nvdimm_pmem_region_create nvdimm_bus_unregister del_vqs dev_err dev_dbg
     set_priv set_drvdata set_driver_ok set_vqs set_buses set_regions
     set_req_vq set_nvdimm_bus set_provider_name set_pmem_lock set_req_list
     set_start set_size zeroed_vpmem pending
     priv drvdata driver_ok vqs buses regions
     req_vq nvdimm_bus provider_name pmem_lock req_list start size
     fmap option_fmap option_map map app negb fst snd id].

(** One goal per path through [virtio_pmem_probe]: configuration access
    disabled, allocation failure, queue failure, and then, for either source
    of the address range, bus failure, region failure and success. *)
Ltac probe_split h :=
  run_model;
  destruct (config_get h) as [?get|] eqn:?Hget; run_model;
  [ destruct (kzalloc_ok h) eqn:?Hk; run_model;
    [ destruct (IS_ERR (find_single_vq h)) eqn:?Hvq; run_model;
      [ rewrite (IS_ERR_nonzero _ ltac:(eassumption)); run_model
      | change (0 =? 0) with true; run_model;
        destruct (get_shm_region h VIRTIO_PMEM_SHMCAP_ID_PMEM_REGION)
          as [?sr|] eqn:?Hshm;
        run_model;
        (destruct (bus_register h =? NULL) eqn:?Hbus; run_model;
         [ | match goal with
             | |- context [phys_to_target_node h ?a =? NUMA_NO_NODE] =>
                 destruct (phys_to_target_node h a =? NUMA_NO_NODE) eqn:?Htn;
                 run_model
             end;
             match goal with
             | |- context [pmem_region_create h ?d =? NULL] =>
                 destruct (pmem_region_create h d =? NULL) eqn:?Hrc; run_model
             end ]) ]
    | ]
  | ].

Ltac probe_paths h :=
  match goal with
  | |- context [virtio_pmem_probe h ?w] =>
      let r := fresh "r" in
      let Hr := fresh "Hr" in
      remember (virtio_pmem_probe h w) as r eqn:Hr;
      symmetry in Hr; revert Hr;
      probe_split h;
      intros Hr; subst r; run_model
  end.

(** Split a membership in a log that is known entry by entry. *)
Ltac in_log H :=
  repeat (apply elem_of_cons in H as [H|H]);
  try (apply elem_of_nil in H; contradiction).

(** ** Region discovery *)

Example probe_legacy_range :
  (fun v => (start v, size v)) <$> priv (dev (virtio_pmem_probe host_legacy (boot fresh_device)).2)
  = Some (4096, 8192).
Proof. vm_compute. reflexivity. Qed.

Example probe_shm_range :
  (fun v => (start v, size v)) <$> priv (dev (virtio_pmem_probe host_shm (boot fresh_device)).2)
  = Some (2 ^ 32, 2 ^ 20).
Proof. vm_compute. reflexivity. Qed.

(** C1. When the host advertises the pmem capability region, no
    configuration-space read is made during the attach, and once discovery
    is reached (configuration access enabled, context allocated, queue
    found) the stored range is the capability's address and length,
    unchanged. *)
Theorem shm_region_used_verbatim h d r :
  get_shm_region h VIRTIO_PMEM_SHMCAP_ID_PMEM_REGION = Some r ->
  let w' := (virtio_pmem_probe h (boot d)).2 in
  (forall e, e ∈ events w' -> is_config_read e = false) /\
  (is_Some (config_get h) -> kzalloc_ok h = true ->
   IS_ERR (find_single_vq h) = false ->
   exists v, priv (dev w') = Some v /\
             start v = shm_addr r /\ size v = shm_len r).
Proof.
  destruct d as [pv dd ok q b rg]. intros Hr.
  probe_paths h; try discriminate Hr; try (injection Hr as ->).
  all: split;
    [ intros e He; in_log He; subst e; reflexivity
    | intros Hc Ha Hq; try discriminate; try (destruct Hc; discriminate) ].
  all: eexists; split; [reflexivity | split; reflexivity].
Qed.

Lemma shm_region_used_verbatim_witness :
  let w' := (virtio_pmem_probe host_shm (boot fresh_device)).2 in
  (forall e, e ∈ events w' -> is_config_read e = false) /\
  (is_Some (config_get host_shm) -> kzalloc_ok host_shm = true ->
   IS_ERR (find_single_vq host_shm) = false ->
   exists v, priv (dev w') = Some v /\
             start v = 2 ^ 32 /\ size v = 2 ^ 20).
Proof.
  exact (shm_region_used_verbatim host_shm fresh_device
           {| shm_addr := 2 ^ 32; shm_len := 2 ^ 20 |} eq_refl).
Defined.

Example le_to_cpu_4096 :
  le_to_cpu [x00; x10; x00; x00; x00; x00; x00; x00] = 4096.
Proof. reflexivity. Qed.

(** C2. When no capability region is advertised, the stored range is read
    from the configuration structure: if its bytes at the [start] and [size]
    members are the little-endian encodings of [s] and [z], the attach
    stores exactly [s] and [z], by one read of each member. *)
Theorem config_fields_decoded h d get s z :
  config_get h = Some get ->
  kzalloc_ok h = true ->
  IS_ERR (find_single_vq h) = false ->
  get_shm_region h VIRTIO_PMEM_SHMCAP_ID_PMEM_REGION = None ->
  0 <= s < 2 ^ 64 -> 0 <= z < 2 ^ 64 ->
  get <$> seqZ offsetof_start 8 = cpu_to_le 8 s ->
  get <$> seqZ offsetof_size 8 = cpu_to_le 8 z ->
  let w' := (virtio_pmem_probe h (boot d)).2 in
  (exists v, priv (dev w') = Some v /\ start v = s /\ size v = z) /\
  filter (fun e => is_config_read e) (events w')
  = [EvConfigRead offsetof_start 8; EvConfigRead offsetof_size 8].
Proof.
  destruct d as [pv dd ok q b rg]. intros Hg Ha Hq Hr Hs Hz Es Ez.
  assert (Ds : le_to_cpu (get <$> seqZ offsetof_start 8) = s).
  { rewrite Es. apply le_to_cpu_to_le. exact Hs. }
  assert (Dz : le_to_cpu (get <$> seqZ offsetof_size 8) = z).
  { rewrite Ez. apply le_to_cpu_to_le. exact Hz. }
  clear Es Ez.
  probe_paths h; try discriminate.
  all: injection Hg as ->.
  all: split; [ eexists; split; [reflexivity | split; [exact Ds | exact Dz]]
              | reflexivity ].
Qed.

Lemma config_fields_decoded_witness :
  let w' := (virtio_pmem_probe host_legacy (boot fresh_device)).2 in
  (exists v, priv (dev w') = Some v /\ start v = 4096 /\ size v = 8192) /\
  filter (fun e => is_config_read e) (events w')
  = [EvConfigRead offsetof_start 8; EvConfigRead offsetof_size 8].
Proof.
  apply (config_fields_decoded host_legacy fresh_device
           (config_bytes (cpu_to_le 8 4096 ++ cpu_to_le 8 8192)) 4096 8192);
    try reflexivity; lia.
Defined.

(** ** Disabled configuration access *)

Example probe_shm_no_get :
  virtio_pmem_probe host_shm_no_get (boot fresh_device)
  = (- EINVAL,
     {| dev := fresh_device;
        trace := [(EvDevErr "virtio_pmem_probe failure: config access disabled",
                   fresh_device)] |}).
Proof. reflexivity. Qed.

(** C3, as stated, fails: with the pmem capability region advertised but no
    configuration read on the transport, attach still ends in
    ConfigUnavailable although one source is reachable. *)
Lemma ConfigUnavailable_with_shm_region :
  ~ (ConfigUnavailable (virtio_pmem_probe host_shm_no_get (boot fresh_device))
     <-> neither_source_reachable host_shm_no_get).
Proof.
  intros [Hfail _].
  assert (Hc : ConfigUnavailable (virtio_pmem_probe host_shm_no_get (boot fresh_device))).
  { split; [reflexivity | apply list_elem_of_here]. }
  destruct (Hfail Hc) as [_ Hshm]. discriminate Hshm.
Qed.

(** C3, amended. Attach ends in ConfigUnavailable exactly when the transport
    has no configuration read, whether or not a capability region is
    advertised.  The failure is fatal and leaves the device as it was: the
    only call made is the error report, before any allocation. *)
Theorem ConfigUnavailable_iff_no_config_get h d :
  (ConfigUnavailable (virtio_pmem_probe h (boot d)) <-> config_get h = None) /\
  (config_get h = None ->
   (virtio_pmem_probe h (boot d)).1 <> 0 /\
   dev (virtio_pmem_probe h (boot d)).2 = d /\
   events (virtio_pmem_probe h (boot d)).2
   = [EvDevErr "virtio_pmem_probe failure: config access disabled"]).
Proof.
  destruct d as [pv dd ok q b rg]. unfold ConfigUnavailable.
  probe_paths h.
  all: split; [ split | ].
  all: first [ discriminate
             | intros [_ He]; first [reflexivity | in_log He; discriminate He]
             | intros _; split; [reflexivity | apply list_elem_of_here]
             | intros _; repeat split; discriminate ].
Qed.

Lemma ConfigUnavailable_iff_no_config_get_witness :
  (virtio_pmem_probe host_shm_no_get (boot fresh_device)).1 <> 0 /\
  dev (virtio_pmem_probe host_shm_no_get (boot fresh_device)).2 = fresh_device /\
  events (virtio_pmem_probe host_shm_no_get (boot fresh_device)).2
  = [EvDevErr "virtio_pmem_probe failure: config access disabled"].
Proof.
  apply (ConfigUnavailable_iff_no_config_get host_shm_no_get fresh_device).
  reflexivity.
Defined.

(** ** Unwinding a failed attach *)

Lemma filter_ne_singleton (b : Z) : filter (fun x => x ≠ b) [b] = [].
Proof.
  rewrite filter_cons. destruct (decide (b ≠ b)) as [Hne|_]; [ | reflexivity ].
  contradiction Hne. reflexivity.
Qed.

Ltac eval_log :=
  cbv beta iota zeta delta
    [take drop length Nat.sub omap list_omap released acquired rev app].

(** Cut a known log [k] entries before its end. *)
Ltac cut_log k :=
  match goal with
  | |- exists t1 t2, ?l = _ /\ _ =>
      exists (take (length l - k) l), (drop (length l - k) l);
      split; [ symmetry; apply take_drop | ];
      eval_log;
      repeat match goal with
             | H : _ = _ |- context [if ?c then _ else _] => rewrite H; eval_log
             end
  end.

(** C4. An attach that fails, at whatever stage, leaves no allocated queue,
    no registered bus handle and no registered region, and the device not
    marked ready.  Its log splits in two: first the acquisitions, then the
    releases, which undo the acquisitions in reverse order.  The caller gets
    one non-zero error code, and one error report is logged (none when the
    context allocation itself fails). *)
Theorem probe_failure_unwinds h d :
  unbound d ->
  (virtio_pmem_probe h (boot d)).1 <> 0 ->
  let w' := (virtio_pmem_probe h (boot d)).2 in
  (vqs (dev w') = [] /\ buses (dev w') = [] /\ regions (dev w') = [] /\
   driver_ok (dev w') = false) /\
  (exists t1 t2, events w' = t1 ++ t2 /\
     omap released t1 = [] /\ omap acquired t2 = [] /\
     omap released t2 = rev (omap acquired t1)) /\
  length (filter (fun e => is_dev_err e) (events w'))
  = match config_get h with
    | Some _ => if kzalloc_ok h then 1%nat else 0%nat
    | None => 1%nat
    end.
Proof.
  destruct d as [pv dd ok q b rg].
  intros (Hp & Ho & Hq & Hb & Hr); simpl in Hp, Ho, Hq, Hb, Hr; subst.
  probe_paths h; intros Herr; try (contradiction Herr; reflexivity).
  all: rewrite ?filter_ne_singleton.
  all: split; [ repeat split | split; [ | reflexivity ] ].
  all: first [ cut_log 3%nat; repeat split; reflexivity
             | cut_log 1%nat; repeat split; reflexivity
             | cut_log 0%nat; repeat split; reflexivity ].
Qed.

Example probe_region_failure_log :
  events (virtio_pmem_probe host_no_region (boot fresh_device)).2
  = [EvKzalloc true; EvFindSingleVq "flush_queue" 65536;
     EvSpinLockInit; EvInitListHead;
     EvGetShmRegion 0 (Some {| shm_addr := 2 ^ 32; shm_len := 2 ^ 20 |});
     EvBusRegister 131072; EvSetDrvdata 131072; EvDeviceReady;
     EvRegionCreate
       {| res_start := 2 ^ 32; res_end := 2 ^ 32 + 2 ^ 20 - 1;
          numa_node := 0; target_node := 1; flush := async_pmem_flush;
          flags := [ND_REGION_PAGEMAP; ND_REGION_ASYNC] |} NULL;
     EvDevErr "failed to create nvdimm region";
     EvResetDevice; EvBusUnregister 131072; EvDelVqs].
Proof. vm_compute. reflexivity. Qed.

Lemma probe_failure_unwinds_witness :
  unbound fresh_device /\
  (virtio_pmem_probe host_no_region (boot fresh_device)).1 <> 0 /\
  let w' := (virtio_pmem_probe host_no_region (boot fresh_device)).2 in
  (vqs (dev w') = [] /\ buses (dev w') = [] /\ regions (dev w') = [] /\
   driver_ok (dev w') = false) /\
  (exists t1 t2, events w' = t1 ++ t2 /\
     omap released t1 = [] /\ omap acquired t2 = [] /\
     omap released t2 = rev (omap acquired t1)) /\
  length (filter (fun e => is_dev_err e) (events w')) = 1%nat.
Proof.
  assert (Hu : unbound fresh_device) by (repeat split).
  assert (He : (virtio_pmem_probe host_no_region (boot fresh_device)).1 <> 0)
    by (vm_compute; discriminate).
  split; [exact Hu | split; [exact He | ]].
  exact (probe_failure_unwinds host_no_region fresh_device Hu He).
Defined.

(** ** Detach *)

Lemma remove_trace w :
  trace (virtio_pmem_remove w)
  = trace w ++
    [(EvBusUnregister (drvdata (dev w)), dev w);
     (EvDelVqs, dev (nvdimm_bus_unregister (drvdata (dev w)) w));
     (EvResetDevice, dev (del_vqs (nvdimm_bus_unregister (drvdata (dev w)) w)))].
Proof.
  unfold virtio_pmem_remove, virtio_reset_device, del_vqs, nvdimm_bus_unregister, call.
  cbn [trace dev]. rewrite <- !app_assoc. reflexivity.
Qed.

Example remove_with_request_log :
  (fun x => (x.1, pending x.2)) <$> trace (virtio_pmem_remove attached_with_request)
  = [(EvBusUnregister 131072, [7%nat]); (EvDelVqs, [7%nat]);
     (EvResetDevice, [7%nat])].
Proof. vm_compute. reflexivity. Qed.



Example remove_log :
  events (virtio_pmem_remove (virtio_pmem_probe host_shm (boot fresh_device)).2)
  = events (virtio_pmem_probe host_shm (boot fresh_device)).2
    ++ [EvBusUnregister 131072; EvDelVqs; EvResetDevice].
Proof. vm_compute. reflexivity. Qed.

(** ** The region handed to libnvdimm *)

(** C6. The target node given to region registration is the platform's
    answer for the discovered start address, unless that answer is
    [NUMA_NO_NODE]; then it is the node computed from the same address.
    Region registration is reached whenever the earlier stages succeed. *)
Theorem target_node_fallback h d :
  let w' := (virtio_pmem_probe h (boot d)).2 in
  (forall desc p, EvRegionCreate desc p ∈ events w' ->
     exists v, priv (dev w') = Some v /\
       res_start desc = start v /\
       numa_node desc = memory_add_physaddr_to_nid h (start v) /\
       target_node desc
       = if phys_to_target_node h (start v) =? NUMA_NO_NODE
         then memory_add_physaddr_to_nid h (start v)
         else phys_to_target_node h (start v)) /\
  (is_Some (config_get h) -> kzalloc_ok h = true ->
   IS_ERR (find_single_vq h) = false -> bus_register h <> NULL ->
   exists desc p, EvRegionCreate desc p ∈ events w').
Proof.
  destruct d as [pv dd ok q b rg].
  probe_paths h.
  all: split;
    [ intros desc p He; in_log He; try discriminate He
    | intros Hc Ha Hq Hb; try discriminate; try (destruct Hc; discriminate);
      try (apply Z.eqb_eq in Hbus; contradiction) ].
  all: try (injection He as -> _; eexists; split; [reflexivity | ];
            cbn [res_start numa_node target_node start];
            rewrite ?Htn; repeat split; reflexivity).
  all: eexists _, _; do 20 (first [ apply list_elem_of_here | apply list_elem_of_further ]).
Qed.

Lemma target_node_fallback_witness :
  exists desc p,
    EvRegionCreate desc p ∈ events (virtio_pmem_probe host_legacy (boot fresh_device)).2
    /\ target_node desc = memory_add_physaddr_to_nid host_legacy 4096.
Proof.
  destruct (target_node_fallback host_legacy fresh_device) as [Hall Hex].
  destruct Hex as (desc & p & Hin);
    [ eexists; reflexivity | reflexivity | reflexivity | discriminate | ].
  exists desc, p. split; [exact Hin | ].
  destruct (Hall desc p Hin) as (v & Hv & _ & _ & Ht).
  injection Hv as <-. exact Ht.
Defined.

Example probe_wrap_region :
  omap (fun e => match e with
                 | EvRegionCreate desc _ => Some (res_start desc, res_end desc)
                 | _ => None
                 end)
       (events (virtio_pmem_probe host_wrap (boot fresh_device)).2)
  = [(2 ^ 64 - 1, 0)].
Proof. vm_compute. reflexivity. Qed.

(** C7, as stated, fails: for the range of two bytes starting at the last
    64-bit address, of strictly positive size, the end handed to region
    registration is 0, not start + size - 1. *)
Lemma res_end_wraps_around :
  ~ (forall desc p v,
       EvRegionCreate desc p ∈ events (virtio_pmem_probe host_wrap (boot fresh_device)).2 ->
       priv (dev (virtio_pmem_probe host_wrap (boot fresh_device)).2) = Some v ->
       0 < size v ->
       res_end desc = start v + size v - 1).
Proof.
  intros H.
  specialize (H {| res_start := 2 ^ 64 - 1; res_end := 0; numa_node := 0;
                   target_node := 1; flush := async_pmem_flush;
                   flags := [ND_REGION_PAGEMAP; ND_REGION_ASYNC] |}
                196608
                {| req_vq := 65536; nvdimm_bus := 131072;
                   provider_name := "virtio-pmem";
                   pmem_lock := SPIN_UNLOCKED; req_list := LIST_HEAD [];
                   start := 2 ^ 64 - 1; size := 2 |}).
  assert (E : res_end {| res_start := 2 ^ 64 - 1; res_end := 0; numa_node := 0;
                         target_node := 1; flush := async_pmem_flush;
                         flags := [ND_REGION_PAGEMAP; ND_REGION_ASYNC] |}
              = 2 ^ 64 - 1 + 2 - 1).
  { apply H.
    - vm_compute. do 20 (first [ apply list_elem_of_here | apply list_elem_of_further ]).
    - vm_compute. reflexivity.
    - reflexivity. }
  discriminate E.
Qed.

(** C7, amended. The inclusive end handed to region registration is
    start + size - 1 reduced modulo 2^64; it equals start + size - 1 itself
    for every range of strictly positive size that ends within the 64-bit
    address space. *)
Theorem res_end_inclusive h d desc p :
  EvRegionCreate desc p ∈ events (virtio_pmem_probe h (boot d)).2 ->
  exists v, priv (dev (virtio_pmem_probe h (boot d)).2) = Some v /\
    res_start desc = start v /\
    res_end desc = u64 (start v + size v - 1) /\
    (0 <= start v -> 0 < size v -> start v + size v <= 2 ^ 64 ->
     res_end desc = start v + size v - 1).
Proof.
  destruct d as [pv dd ok q b rg].
  probe_paths h; intros He; in_log He; try discriminate He.
  all: injection He as -> _; eexists; split; [reflexivity | ].
  all: cbn [res_start res_end start size].
  all: split; [reflexivity | split; [reflexivity | ]].
  all: intros H0 H1 H2; apply u64_small; lia.
Qed.

Lemma res_end_inclusive_witness :
  exists desc p,
    EvRegionCreate desc p ∈ events (virtio_pmem_probe host_shm (boot fresh_device)).2 /\
    res_start desc = 2 ^ 32 /\ res_end desc = 2 ^ 32 + 2 ^ 20 - 1.
Proof.
  eexists _, _. 
  assert (Hin : EvRegionCreate
            {| res_start := 2 ^ 32; res_end := 2 ^ 32 + 2 ^ 20 - 1; numa_node := 0;
               target_node := 1; flush := async_pmem_flush;
               flags := [ND_REGION_PAGEMAP; ND_REGION_ASYNC] |} 196608
          ∈ events (virtio_pmem_probe host_shm (boot fresh_device)).2).
  { vm_compute. do 20 (first [ apply list_elem_of_here | apply list_elem_of_further ]). }
  split; [exact Hin | ].
  destruct (res_end_inclusive host_shm fresh_device _ _ Hin) as (v & Hv & Hs & _ & He).
  injection Hv as <-. split; [exact Hs | ].
  apply He; vm_compute; congruence.
Defined.

(** ** Queue initialisation *)

(** C9. When queue initialisation succeeds on the freshly allocated context,
    the context holds the queue, an initialised and unheld lock and an empty
    request list.  Through the rest of the attach of an unbound device no
    request is pending: not at any call made, and not when attach returns,
    where lock and list are still as initialisation left them. *)
Theorem init_vq_queue_ready h :
  (forall w v, priv (dev w) = Some v -> (init_vq h w).1 = 0 ->
     exists v', priv (dev (init_vq h w).2) = Some v' /\
       req_vq v' = find_single_vq h /\
       pmem_lock v' = SPIN_UNLOCKED /\
       req_list v' = LIST_HEAD [] /\
       pending (dev (init_vq h w).2) = []) /\
  (forall d, unbound d ->
     let w' := (virtio_pmem_probe h (boot d)).2 in
     (forall x, x ∈ trace w' -> pending x.2 = []) /\
     pending (dev w') = [] /\
     (is_Some (config_get h) -> kzalloc_ok h = true ->
      IS_ERR (find_single_vq h) = false ->
      exists v, priv (dev w') = Some v /\
        pmem_lock v = SPIN_UNLOCKED /\ req_list v = LIST_HEAD [])).
Proof.
  split.
  - intros [dv tr] v Hv H0. cbn [dev] in Hv.
    destruct dv as [pv dd ok q b rg]. cbn [priv] in Hv. subst pv.
    revert H0. run_model.
    destruct (IS_ERR (find_single_vq h)) eqn:E; run_model; rewrite ?E; run_model.
    + intros H0. apply IS_ERR_nonzero in E. rewrite H0 in E. discriminate E.
    + intros _. eexists. repeat split.
  - intros [pv dd ok q b rg] (Hp & _); cbn [priv] in Hp; subst pv.
    probe_paths h.
    all: split; [ intros x Hx; in_log Hx; subst x; reflexivity | ].
    all: split; [ reflexivity | ].
    all: intros Hc Ha Hq; try discriminate; try (destruct Hc; discriminate).
    all: eexists; repeat split.
Qed.

Lemma init_vq_queue_ready_witness :
  let w := {| dev := set_priv (Some zeroed_vpmem) fresh_device; trace := [] |} in
  exists v', priv (dev (init_vq host_legacy w).2) = Some v' /\
    req_vq v' = 65536 /\
    pmem_lock v' = SPIN_UNLOCKED /\
    req_list v' = LIST_HEAD [] /\
    pending (dev (init_vq host_legacy w).2) = [].
Proof.
  intros w.
  apply (proj1 (init_vq_queue_ready host_legacy) w zeroed_vpmem); reflexivity.
Defined.

(** ** Device readiness *)

(** C10. Starting from a device not marked ready: whenever region creation is
    attempted the device has been marked ready, whenever the bus is
    unregistered during attach the device has been reset and is no longer
    ready, and a failed attach returns with the device not ready.  Once the
    bus is registered both calls are made: the device is marked ready and
    region creation is attempted; if no region comes back, the device is
    reset, the bus unregistered and [-ENXIO] returned, and otherwise attach
    returns 0 with the device ready. *)
Theorem ready_before_region_reset_before_unregister h d :
  driver_ok d = false ->
  at_each (trace (virtio_pmem_probe h (boot d)).2)
    (fun pre x =>
       match x.1 with
       | EvRegionCreate _ _ =>
           EvDeviceReady ∈ map fst pre /\ driver_ok x.2 = true
       | EvBusUnregister _ =>
           EvResetDevice ∈ map fst pre /\ driver_ok x.2 = false
       | _ => True
       end) /\
  ((virtio_pmem_probe h (boot d)).1 <> 0 ->
   driver_ok (dev (virtio_pmem_probe h (boot d)).2) = false) /\
  (is_Some (config_get h) -> kzalloc_ok h = true ->
   IS_ERR (find_single_vq h) = false -> bus_register h <> NULL ->
   exists desc p,
     EvDeviceReady ∈ events (virtio_pmem_probe h (boot d)).2 /\
     EvRegionCreate desc p ∈ events (virtio_pmem_probe h (boot d)).2 /\
     (p = NULL ->
      (virtio_pmem_probe h (boot d)).1 = - ENXIO /\
      EvResetDevice ∈ events (virtio_pmem_probe h (boot d)).2 /\
      EvBusUnregister (bus_register h) ∈ events (virtio_pmem_probe h (boot d)).2) /\
     (p <> NULL ->
      (virtio_pmem_probe h (boot d)).1 = 0 /\
      driver_ok (dev (virtio_pmem_probe h (boot d)).2) = true)).
Proof.
  destruct d as [pv dd ok q b rg]. cbn [driver_ok]. intros ->.
  probe_paths h.
  all: split; [ | split;
                  [ intros Herr; first [reflexivity | contradiction Herr; reflexivity]
                  | intros Hc Ha Hq Hb; try discriminate;
                    try (destruct Hc; discriminate);
                    try (apply Z.eqb_eq in Hbus; contradiction) ] ].
  all: try (walk_log; cbn [fst snd map driver_ok]; try exact I).
  all: match goal with
       | |- _ ∈ _ /\ _ = _ =>
           split; [ do 20 (first [ apply list_elem_of_here | apply list_elem_of_further ])
                  | reflexivity ]
       | |- _ => idtac
       end.
  all: eexists _, _;
    split; [ do 20 (first [ apply list_elem_of_here | apply list_elem_of_further ]) | ];
    split; [ do 20 (first [ apply list_elem_of_here | apply list_elem_of_further ]) | ].
  all: first [ apply Z.eqb_eq in Hrc | apply Z.eqb_neq in Hrc ].
  all: split; intros Hnull; try contradiction; try (rewrite Hrc in Hnull; contradiction).
  all: first [ split; reflexivity
             | split; [reflexivity | split;
                 do 20 (first [ apply list_elem_of_here | apply list_elem_of_further ]) ] ].
Qed.

Lemma ready_before_region_reset_before_unregister_witness :
  driver_ok fresh_device = false /\
  exists desc,
    EvDeviceReady ∈ events (virtio_pmem_probe host_no_region (boot fresh_device)).2 /\
    EvRegionCreate desc NULL ∈ events (virtio_pmem_probe host_no_region (boot fresh_device)).2 /\
    (virtio_pmem_probe host_no_region (boot fresh_device)).1 = - ENXIO /\
    EvResetDevice ∈ events (virtio_pmem_probe host_no_region (boot fresh_device)).2 /\
    EvBusUnregister 131072 ∈ events (virtio_pmem_probe host_no_region (boot fresh_device)).2 /\
    driver_ok (dev (virtio_pmem_probe host_no_region (boot fresh_device)).2) = false.
Proof.
  split; [reflexivity | ].
  destruct (ready_before_region_reset_before_unregister host_no_region fresh_device eq_refl)
    as (_ & Hfail & Hreach).
  assert (Hc : is_Some (config_get host_no_region)) by (eexists; reflexivity).
  assert (Hb : bus_register host_no_region <> NULL) by discriminate.
  destruct (Hreach Hc eq_refl eq_refl Hb) as (desc & p & Hready & Hcreate & Hnull & _).
  assert (Hp : p = NULL).
  { revert Hcreate. vm_compute. intros Hin.
    repeat (apply elem_of_cons in Hin as [Hin|Hin]; [ try discriminate Hin | ]).
    - injection Hin as _ ->. reflexivity.
    - apply elem_of_nil in Hin. contradiction. }
  subst p. destruct (Hnull eq_refl) as (Hret & Hreset & Hunreg).
  assert (Hnz : (virtio_pmem_probe host_no_region (boot fresh_device)).1 <> 0)
    by (rewrite Hret; discriminate).
  exists desc.
  split; [exact Hready | split; [exact Hcreate | split; [exact Hret | ]]].
  split; [exact Hreset | split; [exact Hunreg | exact (Hfail Hnz)]].
Defined.

(** ** Token-based completion on the flush queue *)

Example flush_out_of_order :
  (fun s => (slots s !! 0%nat, slots s !! 1%nat, slots s !! 2%nat,
             woken s, flush_pending s))
  <$> ('(_, s) ← submit_many 3 (flush_init queue_ready_vpmem);
       host_acks [(2%nat, IoError 5); (0%nat, FlushOk)] s)
  = Some (Some FlushOk, None, Some (IoError 5), [2%nat; 0%nat], [1%nat]).
Proof. vm_compute. reflexivity. Qed.

(** ** Lists of tokens *)

Lemma filter_iff_on {A} (P1 P2 : A -> Prop)
    `{!forall x, Decision (P1 x), !forall x, Decision (P2 x)} (l : list A) :
  (forall x, x ∈ l -> (P1 x <-> P2 x)) -> filter P1 l = filter P2 l.
Proof.
  induction l as [|a l IH]; intros Hall; [reflexivity | ].
  rewrite !filter_cons.
  rewrite IH by (intros x Hx; apply Hall; right; exact Hx).
  pose proof (Hall a (list_elem_of_here _ _)) as Ha.
  destruct (decide (P1 a)) as [H1|H1], (decide (P2 a)) as [H2|H2];
    try reflexivity; tauto.
Qed.

Lemma filter_ne_absent (t : request) (l : list request) :
  t ∉ l -> filter (fun x => x ≠ t) l = l.
Proof.
  induction l as [|a l IH]; intros Hn; [reflexivity | ].
  apply not_elem_of_cons in Hn as [Hne Hl].
  rewrite filter_cons_True by (intros ->; apply Hne; reflexivity).
  rewrite IH by exact Hl. reflexivity.
Qed.

Lemma filter_all {A} (P : A -> Prop) `{!forall x, Decision (P x)} (l : list A) :
  (forall x, x ∈ l -> P x) -> filter P l = l.
Proof.
  induction l as [|a l IH]; intros Hall; [reflexivity | ].
  rewrite filter_cons_True by (apply Hall; left).
  rewrite IH by (intros x Hx; apply Hall; right; exact Hx). reflexivity.
Qed.

(** ** The flush queue's invariant *)

Lemma submit_flush_spec s :
  flush_inv s ->
  exists s', submit_flush s = Some (next_token s, s') /\ flush_inv s' /\
    flush_pending s' = flush_pending s ++ [next_token s] /\
    next_token s' = S (next_token s) /\
    slots s' = slots s /\ woken s' = woken s.
Proof.
  intros (Hlock & l & Hl & Hnd & Hold & Hfree).
  unfold submit_flush, spin_lock. rewrite Hlock. cbn.
  unfold members. cbn. rewrite Hl. cbn.
  eexists. split; [reflexivity | ].
  split.
  - split; [reflexivity | ]. exists (l ++ [next_token s]). cbn.
    split; [reflexivity | ]. split; [ | split ].
    + apply NoDup_app. split; [exact Hnd | ]. split; [ | apply NoDup_singleton ].
      intros t Ht Ht'. apply list_elem_of_singleton in Ht'. subst t.
      apply Hold in Ht. lia.
    + intros t Ht. apply elem_of_app in Ht as [Ht|Ht].
      * apply Hold in Ht. lia.
      * apply list_elem_of_singleton in Ht. subst t. lia.
    + intros t [Ht|Ht]; apply Hfree.
      * apply elem_of_app in Ht as [Ht|Ht]; [left; exact Ht | right ].
        apply list_elem_of_singleton in Ht. subst t. lia.
      * right. lia.
  - unfold flush_pending, members. cbn. rewrite Hl. repeat split.
Qed.

Lemma submit_many_spec n s :
  flush_inv s ->
  exists s', submit_many n s = Some (seq (next_token s) n, s') /\ flush_inv s' /\
    flush_pending s' = flush_pending s ++ seq (next_token s) n /\
    slots s' = slots s /\ woken s' = woken s.
Proof.
  revert s. induction n as [|n IH]; intros s Hinv.
  - exists s. cbn. rewrite app_nil_r.
    split; [reflexivity | ]. split; [exact Hinv | ].
    split; [reflexivity | split; reflexivity].
  - destruct (submit_flush_spec s Hinv) as (s1 & E1 & Hinv1 & Hp1 & Hn1 & Hs1 & Hw1).
    destruct (IH s1 Hinv1) as (s2 & E2 & Hinv2 & Hp2 & Hs2 & Hw2).
    exists s2. cbn [submit_many]. rewrite E1. cbn. rewrite E2. cbn.
    rewrite Hn1. split; [reflexivity | ]. split; [exact Hinv2 | ].
    rewrite Hp2, Hp1, Hn1, <- app_assoc. cbn.
    split; [reflexivity | ]. split; congruence.
Qed.

Lemma host_ack_spec c s :
  flush_inv s ->
  exists s', host_ack c s = Some s' /\ flush_inv s' /\
    flush_pending s' = filter (fun t => t ≠ c.1) (flush_pending s) /\
    slots s' = (if decide (c.1 ∈ flush_pending s)
                then <[c.1 := c.2]> (slots s) else slots s) /\
    woken s' = woken s ++ (if decide (c.1 ∈ flush_pending s) then [c.1] else []).
Proof.
  intros (Hlock & l & Hl & Hnd & Hold & Hfree).
  unfold host_ack, spin_lock. rewrite Hlock. cbn.
  unfold flush_pending, members. cbn. rewrite Hl. cbn.
  destruct (decide (c.1 ∈ l)) as [Hin|Hout].
  - eexists. split; [reflexivity | ]. cbn. split; [ | repeat split ].
    split; [reflexivity | ]. eexists. split; [reflexivity | ].
    split; [ apply NoDup_filter; exact Hnd | ]. cbn. split.
    + intros t Ht. apply list_elem_of_filter in Ht as [_ Ht]. apply Hold, Ht.
    + intros t Ht.
      assert (Hne : c.1 ≠ t).
      { destruct Ht as [Ht|Ht].
        - apply list_elem_of_filter in Ht as [Hne _]. congruence.
        - apply Hold in Hin. lia. }
      rewrite lookup_insert_ne by exact Hne. apply Hfree.
      destruct Ht as [Ht|Ht]; [left | right; exact Ht].
      apply list_elem_of_filter in Ht as [_ Ht]. exact Ht.
  - eexists. split; [reflexivity | ]. cbn. rewrite ?Hl. cbn.
    split; [ | repeat split ].
    + split; [reflexivity | ]. exists l. repeat split; assumption.
    + rewrite filter_ne_absent by exact Hout. reflexivity.
    + rewrite app_nil_r. reflexivity.
Qed.

Lemma host_acks_spec cs s :
  flush_inv s -> NoDup cs.*1 ->
  exists s', host_acks cs s = Some s' /\ flush_inv s' /\
    flush_pending s' = filter (fun t => t ∉ cs.*1) (flush_pending s) /\
    (forall t st, (t, st) ∈ cs -> t ∈ flush_pending s -> slots s' !! t = Some st) /\
    (forall t, t ∉ cs.*1 \/ t ∉ flush_pending s -> slots s' !! t = slots s !! t) /\
    woken s' = woken s ++ filter (fun t => t ∈ flush_pending s) cs.*1.
Proof.
  revert s. induction cs as [|c cs IH]; intros s Hinv Hnd.
  - exists s. cbn. rewrite app_nil_r. split; [reflexivity | ].
    split; [exact Hinv | ]. split; [ | split; [ | split ] ].
    + symmetry. apply filter_all. intros x _ Hx. apply elem_of_nil in Hx. exact Hx.
    + intros t st Ht. apply elem_of_nil in Ht. contradiction.
    + reflexivity.
    + reflexivity.
  - cbn [fmap list_fmap] in Hnd. apply NoDup_cons in Hnd as [Hc Hnd].
    destruct (host_ack_spec c s Hinv) as (s1 & E1 & Hinv1 & Hp1 & Hs1 & Hw1).
    destruct (IH s1 Hinv1 Hnd) as (s2 & E2 & Hinv2 & Hp2 & Hres & Hkeep & Hw2).
    exists s2. cbn [host_acks]. rewrite E1. cbn. split; [exact E2 | ].
    split; [exact Hinv2 | ].
    assert (Hsub : forall t, t ∈ flush_pending s1 <-> t ≠ c.1 /\ t ∈ flush_pending s).
    { intros t. rewrite Hp1, list_elem_of_filter. reflexivity. }
    split; [ | split; [ | split ] ].
    + rewrite Hp2, Hp1, list_filter_filter. apply list_filter_iff.
      intros t. cbn [fmap list_fmap]. rewrite not_elem_of_cons. tauto.
    + intros t st Ht Hpend. apply elem_of_cons in Ht as [Ht|Ht].
      * subst c. cbn [fst snd] in *.
        rewrite Hkeep by (left; exact Hc).
        rewrite Hs1. rewrite decide_True by exact Hpend.
        apply lookup_insert_eq.
      * assert (Hne : t ≠ c.1).
        { intros ->. apply Hc. apply (list_elem_of_fmap_2 fst) in Ht. exact Ht. }
        apply (Hres t st Ht). apply Hsub. split; assumption.
    + intros t Ht.
      rewrite Hkeep.
      * rewrite Hs1. destruct (decide (c.1 ∈ flush_pending s)) as [Hin|_]; [ | reflexivity ].
        apply lookup_insert_ne. intros <-.
        destruct Ht as [Ht|Ht]; [ | contradiction ].
        apply Ht. cbn [fmap list_fmap]. left.
      * destruct Ht as [Ht|Ht].
        -- left. cbn [fmap list_fmap] in Ht. apply not_elem_of_cons in Ht. tauto.
        -- right. intros Hin. apply Hsub in Hin. tauto.
    + rewrite Hw2, Hw1, <- app_assoc. f_equal.
      cbn [fmap list_fmap].
      rewrite (filter_iff_on (fun t => t ∈ flush_pending s1) (fun t => t ∈ flush_pending s)).
      * destruct (decide (c.1 ∈ flush_pending s)); reflexivity.
      * intros t Ht. rewrite Hsub. split; [tauto | ]. intros Hin. split; [ | exact Hin ].
        intros ->. contradiction.
Qed.

(** C8. After [n] submissions on a queue as initialisation leaves it, the
    tokens handed out are 0 .. n-1 in order, and whatever the order in which
    the host reports completions, each once: a completion naming a submitted
    token fills that token's slot with the reported status and wakes that
    token's caller and nobody else; tokens not reported stay pending with
    their slots empty. *)
Theorem completion_resolves_submitter v n cs :
  pmem_lock v = SPIN_UNLOCKED ->
  req_list v = LIST_HEAD [] ->
  NoDup cs.*1 ->
  exists s1 s2,
    submit_many n (flush_init v) = Some (seq 0 n, s1) /\
    host_acks cs s1 = Some s2 /\
    (forall t st, (t, st) ∈ cs -> (t < n)%nat -> slots s2 !! t = Some st) /\
    (forall t, t ∉ cs.*1 -> slots s2 !! t = None) /\
    woken s2 = filter (fun t => (t < n)%nat) cs.*1 /\
    flush_pending s2 = filter (fun t => t ∉ cs.*1) (seq 0 n).
Proof.
  intros Hlock Hlist Hnd.
  assert (Hinv : flush_inv (flush_init v)).
  { split; [exact Hlock | ]. exists []. split; [exact Hlist | ].
    split; [apply NoDup_nil_2 | ]. split.
    - intros t Ht. apply elem_of_nil in Ht. contradiction.
    - intros t _. apply lookup_empty. }
  destruct (submit_many_spec n _ Hinv) as (s1 & E1 & Hinv1 & Hp1 & Hs1 & Hw1).
  destruct (host_acks_spec cs s1 Hinv1 Hnd) as (s2 & E2 & _ & Hp2 & Hres & Hkeep & Hw2).
  assert (Hp0 : flush_pending (flush_init v) = []).
  { unfold flush_pending, members, flush_init. cbn. rewrite Hlist. reflexivity. }
  rewrite Hp0 in Hp1. cbn in Hp1, Hs1, Hw1, E1.
  exists s1, s2. split; [exact E1 | ]. split; [exact E2 | ].
  assert (Hmem : forall t, t ∈ flush_pending s1 <-> (t < n)%nat).
  { intros t. rewrite Hp1, elem_of_seq. lia. }
  split; [ | split; [ | split ] ].
  - intros t st Ht Hlt. apply (Hres t st Ht). apply Hmem. exact Hlt.
  - intros t Ht. rewrite Hkeep by (left; exact Ht). rewrite Hs1. apply lookup_empty.
  - rewrite Hw2, Hw1. cbn. apply filter_iff_on. intros t _. apply Hmem.
  - rewrite Hp2, Hp1. reflexivity.
Qed.

Lemma completion_resolves_submitter_witness :
  exists s1 s2,
    submit_many 3 (flush_init queue_ready_vpmem) = Some ([0; 1; 2]%nat, s1) /\
    host_acks [(2%nat, IoError 5); (0%nat, FlushOk)] s1 = Some s2 /\
    slots s2 !! 2%nat = Some (IoError 5) /\
    slots s2 !! 0%nat = Some FlushOk /\
    slots s2 !! 1%nat = None /\
    woken s2 = [2; 0]%nat /\
    flush_pending s2 = [1%nat].
Proof.
  assert (Hnd : NoDup [(2%nat, IoError 5); (0%nat, FlushOk)].*1).
  { cbn. repeat (apply NoDup_cons; split; [ | ]); try apply NoDup_nil_2.
    - intros H. apply list_elem_of_singleton in H. discriminate H.
    - intros H. apply elem_of_nil in H. exact H. }
  destruct (completion_resolves_submitter queue_ready_vpmem 3
              [(2%nat, IoError 5); (0%nat, FlushOk)] eq_refl eq_refl Hnd)
    as (s1 & s2 & E1 & E2 & Hres & Hnone & Hw & Hp).
  exists s1, s2. split; [exact E1 | ]. split; [exact E2 | ].
  split; [ apply Hres; [ apply list_elem_of_here | lia ] | ].
  split; [ apply Hres; [ apply list_elem_of_further, list_elem_of_here | lia ] | ].
  split; [ apply Hnone; cbn; intros H;
           repeat (apply elem_of_cons in H as [H|H]; [discriminate H | ]);
           apply elem_of_nil in H; exact H | ].
  split; [ rewrite Hw; reflexivity | rewrite Hp; reflexivity ].
Defined.

(** ** Error pointers through [init_vq] *)

Lemma u64_neg_errno e : 1 <= e <= MAX_ERRNO -> u64 (- e) = 2 ^ 64 - e.
Proof.
  unfold MAX_ERRNO, u64, wrap. intros He. symmetry.
  apply Z.mod_unique with (q := -1); lia.
Qed.

Lemma IS_ERR_ERR_PTR e : 1 <= e <= MAX_ERRNO -> IS_ERR (ERR_PTR (- e)) = true.
Proof.
  intros He. unfold IS_ERR, ERR_PTR.
  rewrite (u64_small (u64 (- e))) by apply u64_range.
  rewrite (u64_neg_errno e He), (u64_neg_errno MAX_ERRNO) by (unfold MAX_ERRNO; lia).
  apply Z.leb_le. lia.
Qed.

Lemma PTR_ERR_ERR_PTR e :
  1 <= e <= MAX_ERRNO -> signed 32 (PTR_ERR (ERR_PTR (- e))) = - e.
Proof.
  intros He. pose proof (IS_ERR_errno _ (IS_ERR_ERR_PTR e He)) as Hr.
  revert Hr. unfold PTR_ERR, ERR_PTR. rewrite (u64_neg_errno e He).
  unfold MAX_ERRNO in *.
  assert (E64 : signed 64 (2 ^ 64 - e) = - e).
  { unfold signed, wrap. rewrite Z.mod_small by lia. change (64 - 1) with 63.
    destruct (Z.ltb_spec (2 ^ 64 - e) (2 ^ 63)); lia. }
  rewrite E64. intros _. unfold signed, wrap.
  assert (Em : (- e) mod 2 ^ 32 = 2 ^ 32 - e).
  { symmetry. apply Z.mod_unique with (q := -1); lia. }
  rewrite Em. change (32 - 1) with 31.
  destruct (Z.ltb_spec (2 ^ 32 - e) (2 ^ 31)); lia.
Qed.

(** X1. An errno that [virtio_find_single_vq] encodes in its pointer comes
    back from [init_vq] unchanged; the lock and the list are left as they
    were, no queue is recorded for the device, and nothing else is called. *)
Theorem init_vq_returns_queue_errno h w e :
  1 <= e <= MAX_ERRNO ->
  is_Some (priv (dev w)) ->
  find_single_vq h = ERR_PTR (- e) ->
  (init_vq h w).1 = - e /\
  events (init_vq h w).2 = events w ++ [EvFindSingleVq "flush_queue" (ERR_PTR (- e))] /\
  vqs (dev (init_vq h w).2) = vqs (dev w) /\
  pmem_lock <$> priv (dev (init_vq h w).2) = pmem_lock <$> priv (dev w) /\
  req_list <$> priv (dev (init_vq h w).2) = req_list <$> priv (dev w).
Proof.
  intros He [v Hv] Hp. destruct w as [[pv dd ok q b rg] tr].
  cbn [dev priv] in Hv. subst pv.
  pose proof (IS_ERR_ERR_PTR e He) as Herr.
  pose proof (PTR_ERR_ERR_PTR e He) as Hval.
  unfold init_vq, virtio_find_single_vq. rewrite Hp.
  unfold vpmem_load, vpmem_store, call. cbn [dev trace priv set_priv set_vqs fmap option_fmap option_map req_vq set_req_vq].
  rewrite Herr. unfold events.
  cbn [fst snd trace dev vqs priv set_priv set_vqs fmap option_fmap option_map].
  split; [exact Hval | ].
  split; [ rewrite map_app; reflexivity | repeat split ].
Qed.

Lemma init_vq_returns_queue_errno_witness :
  (init_vq host_no_queue
     {| dev := set_priv (Some zeroed_vpmem) fresh_device; trace := [] |}).1 = - ENOMEM.
Proof.
  apply (init_vq_returns_queue_errno host_no_queue
           {| dev := set_priv (Some zeroed_vpmem) fresh_device; trace := [] |} ENOMEM).
  - unfold ENOMEM, MAX_ERRNO. lia.
  - eexists. reflexivity.
  - reflexivity.
Defined.

(** X2. On an allocated context [init_vq] returns 0 exactly when the queue
    pointer is not an error pointer, and otherwise a negative errno no
    smaller than [-MAX_ERRNO]; only in the first case are the lock and the
    list initialised. *)
Theorem init_vq_return_value h w :
  is_Some (priv (dev w)) ->
  ((init_vq h w).1 = 0 <-> IS_ERR (find_single_vq h) = false) /\
  - MAX_ERRNO <= (init_vq h w).1 <= 0 /\
  (EvSpinLockInit ∈ events (init_vq h w).2 <-> 
   EvSpinLockInit ∈ events w \/ (init_vq h w).1 = 0) /\
  (EvInitListHead ∈ events (init_vq h w).2 <->
   EvInitListHead ∈ events w \/ (init_vq h w).1 = 0).
Proof.
  intros [v Hv]. destruct w as [[pv dd ok q b rg] tr].
  cbn [dev priv] in Hv. subst pv.
  unfold init_vq, virtio_find_single_vq, spin_lock_init, INIT_LIST_HEAD.
  unfold vpmem_load, vpmem_store, call.
  cbn [dev trace priv set_priv set_vqs fmap option_fmap option_map req_vq set_req_vq].
  unfold events.
  destruct (IS_ERR (find_single_vq h)) eqn:E;
    cbn [fst snd trace dev].
  - pose proof (IS_ERR_errno _ E) as Hr.
    split; [ split; [ lia | discriminate ] | ].
    split; [ lia | ].
    rewrite !map_app. cbn [map fst]. rewrite !elem_of_app, !list_elem_of_singleton.
    split; (split; [ intros [H|H]; [left; exact H | discriminate H]
                   | intros [H|H]; [left; exact H | lia] ]).
  - split; [ split; reflexivity | ].
    split; [ unfold MAX_ERRNO; lia | ].
    rewrite !map_app. cbn [map fst].
    rewrite !elem_of_app, !list_elem_of_singleton.
    split; (split; [ intros _; right; reflexivity | intros _ ]); tauto.
Qed.

Lemma init_vq_return_value_witness :
  (init_vq host_legacy
     {| dev := set_priv (Some zeroed_vpmem) fresh_device; trace := [] |}).1 = 0.
Proof.
  apply (init_vq_return_value host_legacy
           {| dev := set_priv (Some zeroed_vpmem) fresh_device; trace := [] |}).
  - eexists. reflexivity.
  - reflexivity.
Defined.

(** ** Return codes of attach *)

(** X3. Attach returns 0 exactly when region creation was reached and handed
    back a region; every other return value is a negative errno no smaller
    than [-MAX_ERRNO]. *)
Theorem probe_return_value h d :
  ((virtio_pmem_probe h (boot d)).1 = 0 <->
   exists desc p, EvRegionCreate desc p ∈ events (virtio_pmem_probe h (boot d)).2
                  /\ p <> NULL) /\
  - MAX_ERRNO <= (virtio_pmem_probe h (boot d)).1 <= 0.
Proof.
  destruct d as [pv dd ok q b rg].
  probe_paths h.
  all: split; [ split | ].
  all: try (unfold MAX_ERRNO, EINVAL, ENOMEM, ENXIO; lia).
  all: try (apply IS_ERR_errno in Hvq; lia).
  all: try (intros _; eexists _, _; split;
            [ do 20 (first [ apply list_elem_of_here | apply list_elem_of_further ])
            | apply Z.eqb_neq; eassumption ]).
  all: try discriminate.
  all: intros (desc & p & He & Hp); in_log He; try discriminate He.
  all: try (apply IS_ERR_nonzero in Hvq; exfalso).
  all: injection He as _ ->; apply Z.eqb_eq in Hrc; contradiction.
Qed.

(** X4. A failing queue allocation makes attach return the queue's errno
    unchanged, right after reporting it: the address range is not looked up,
    nothing is registered, and [del_vqs] is not called. *)
Theorem probe_queue_failure h d e :
  is_Some (config_get h) ->
  kzalloc_ok h = true ->
  1 <= e <= MAX_ERRNO ->
  find_single_vq h = ERR_PTR (- e) ->
  (virtio_pmem_probe h (boot d)).1 = - e /\
  events (virtio_pmem_probe h (boot d)).2
  = [EvKzalloc true; EvFindSingleVq "flush_queue" (ERR_PTR (- e));
     EvDevErr "failed to initialize virtio pmem vq's"] /\
  vqs (dev (virtio_pmem_probe h (boot d)).2) = vqs d.
Proof.
  destruct d as [pv dd ok q b rg].
  intros Hc Ha He Hp.
  pose proof (IS_ERR_ERR_PTR e He) as Herr.
  pose proof (PTR_ERR_ERR_PTR e He) as Hval.
  rewrite <- Hp in Herr, Hval |- *.
  probe_paths h; try discriminate; try (destruct Hc; discriminate).
  split; [exact Hval | split; reflexivity].
Qed.

Lemma probe_queue_failure_witness :
  (virtio_pmem_probe host_no_queue (boot fresh_device)).1 = - ENOMEM.
Proof.
  apply (probe_queue_failure host_no_queue fresh_device ENOMEM).
  - eexists. reflexivity.
  - reflexivity.
  - unfold ENOMEM, MAX_ERRNO. lia.
  - reflexivity.
Defined.

(** X5. When bus registration fails attach returns [-ENXIO]; the device is
    never marked ready, region creation is never attempted, the driver data
    is left untouched, and the queue is released as the last call. *)
Theorem probe_bus_failure h d :
  is_Some (config_get h) ->
  kzalloc_ok h = true ->
  IS_ERR (find_single_vq h) = false ->
  bus_register h = NULL ->
  let r := virtio_pmem_probe h (boot d) in
  r.1 = - ENXIO /\
  (forall e, e ∈ events r.2 ->
     e <> EvDeviceReady /\ (forall desc p, e <> EvRegionCreate desc p) /\
     (forall p, e <> EvSetDrvdata p)) /\
  last (events r.2) = Some EvDelVqs /\
  drvdata (dev r.2) = drvdata d /\ driver_ok (dev r.2) = driver_ok d /\
  vqs (dev r.2) = [].
Proof.
  destruct d as [pv dd ok q b rg].
  intros Hc Ha Hq Hb.
  probe_paths h; try discriminate; try (destruct Hc; discriminate).
  all: try (rewrite Hb in Hbus; discriminate Hbus).
  all: split; [reflexivity | ].
  all: split; [ intros e He; in_log He; subst e; repeat split; intros; discriminate | ].
  all: repeat split.
Qed.

Lemma probe_bus_failure_witness :
  (virtio_pmem_probe host_no_bus (boot fresh_device)).1 = - ENXIO.
Proof.
  apply (probe_bus_failure host_no_bus fresh_device).
  - eexists. reflexivity.
  - reflexivity.
  - reflexivity.
  - reflexivity.
Defined.

(** ** What a successful attach leaves behind *)

Lemma filter_region_bus (p bus : Z) (desc : nd_region_desc) :
  filter (fun r => rg_bus r ≠ bus)
    [{| rg_handle := p; rg_bus := bus; rg_desc := desc |}] = [].
Proof.
  rewrite filter_cons. cbn [rg_bus].
  destruct (decide (bus ≠ bus)) as [Hne|_]; [ | reflexivity ].
  contradiction Hne. reflexivity.
Qed.

(** X6. After a successful attach of an unbound device, the device holds
    exactly the queue, the bus and the region that the kernel handed out, the
    context and the driver data both name that bus, the device is marked
    ready, and the region was registered on that bus with the asynchronous
    flush callback and the page-mapped and asynchronous flags. *)
Theorem probe_success_state h d :
  unbound d ->
  (virtio_pmem_probe h (boot d)).1 = 0 ->
  let d' := dev (virtio_pmem_probe h (boot d)).2 in
  exists v desc,
    priv d' = Some v /\
    req_vq v = find_single_vq h /\ vqs d' = [find_single_vq h] /\
    nvdimm_bus v = bus_register h /\ drvdata d' = bus_register h /\
    buses d' = [bus_register h] /\
    regions d' = [{| rg_handle := pmem_region_create h desc;
                     rg_bus := bus_register h; rg_desc := desc |}] /\
    driver_ok d' = true /\
    provider_name v = "virtio-pmem" /\
    res_start desc = start v /\
    flush desc = async_pmem_flush /\
    flags desc = [ND_REGION_PAGEMAP; ND_REGION_ASYNC] /\
    pmem_region_create h desc <> NULL /\ bus_register h <> NULL.
Proof.
  destruct d as [pv dd ok q b rg].
  intros (Hp & Ho & Hq & Hb & Hr); simpl in Hp, Ho, Hq, Hb, Hr; subst.
  probe_paths h; intros Hret; try discriminate Hret;
    try (apply IS_ERR_nonzero in Hvq; rewrite Hret in Hvq; discriminate Hvq).
  all: apply Z.eqb_neq in Hrc; apply Z.eqb_neq in Hbus.
  all: eexists _, _; repeat split; first [ exact Hrc | exact Hbus ].
Qed.

Lemma probe_success_state_witness :
  driver_ok (dev (virtio_pmem_probe host_shm (boot fresh_device)).2) = true /\
  vqs (dev (virtio_pmem_probe host_shm (boot fresh_device)).2) = [65536] /\
  buses (dev (virtio_pmem_probe host_shm (boot fresh_device)).2) = [131072].
Proof.
  destruct (probe_success_state host_shm fresh_device)
    as (v & desc & _ & _ & Hq & _ & _ & Hb & _ & Hok & _).
  - repeat split.
  - reflexivity.
  - split; [exact Hok | split; [exact Hq | exact Hb]].
Defined.

(** X7. Detach undoes a successful attach: after attaching an unbound device
    and removing it again, no queue, bus or region is left, nothing is
    pending, the device is not ready, and detach made exactly three calls:
    unregister the bus that attach registered, delete the queues, reset. *)
Theorem probe_then_remove h d :
  unbound d ->
  (virtio_pmem_probe h (boot d)).1 = 0 ->
  let w1 := (virtio_pmem_probe h (boot d)).2 in
  let w2 := virtio_pmem_remove w1 in
  vqs (dev w2) = [] /\ buses (dev w2) = [] /\ regions (dev w2) = [] /\
  driver_ok (dev w2) = false /\ pending (dev w2) = [] /\
  events w2 = events w1 ++ [EvBusUnregister (bus_register h); EvDelVqs; EvResetDevice].
Proof.
  destruct d as [pv dd ok q b rg].
  intros (Hp & Ho & Hq & Hb & Hr); simpl in Hp, Ho, Hq, Hb, Hr; subst.
  probe_paths h; intros Hret; try discriminate Hret;
    try (apply IS_ERR_nonzero in Hvq; rewrite Hret in Hvq; discriminate Hvq).
  all: rewrite ?filter_ne_singleton, ?filter_region_bus.
  all: repeat split.
Qed.

Lemma probe_then_remove_witness :
  let w2 := virtio_pmem_remove (virtio_pmem_probe host_shm (boot fresh_device)).2 in
  vqs (dev w2) = [] /\ buses (dev w2) = [] /\ regions (dev w2) = [] /\
  driver_ok (dev w2) = false /\ pending (dev w2) = [] /\
  events w2 = events (virtio_pmem_probe host_shm (boot fresh_device)).2
              ++ [EvBusUnregister 131072; EvDelVqs; EvResetDevice].
Proof.
  apply (probe_then_remove host_shm fresh_device).
  - repeat split.
  - reflexivity.
Defined.

(** ** Attaching again *)

Lemma probe_failure_resources h d :
  (virtio_pmem_probe h (boot d)).1 <> 0 ->
  vqs d = [] -> buses d = [] -> regions d = [] -> driver_ok d = false ->
  same_resources (dev (virtio_pmem_probe h (boot d)).2) d.
Proof.
  destruct d as [pv dd ok q b rg]. cbn [vqs buses regions driver_ok].
  intros Hret -> -> -> ->. revert Hret. unfold same_resources.
  probe_paths h; intros Hret; try (contradiction Hret; reflexivity).
  all: rewrite ?filter_ne_singleton.
  all: repeat split.
Qed.

Lemma probe_ignores_context h pv dd pv' dd' ok q b rg :
  let d := {| priv := pv; drvdata := dd; driver_ok := ok;
              vqs := q; buses := b; regions := rg |} in
  let d' := {| priv := pv'; drvdata := dd'; driver_ok := ok;
               vqs := q; buses := b; regions := rg |} in
  (virtio_pmem_probe h (boot d')).1 = (virtio_pmem_probe h (boot d)).1 /\
  same_resources (dev (virtio_pmem_probe h (boot d')).2)
                 (dev (virtio_pmem_probe h (boot d)).2) /\
  ((virtio_pmem_probe h (boot d)).1 = 0 ->
   dev (virtio_pmem_probe h (boot d')).2 = dev (virtio_pmem_probe h (boot d)).2).
Proof.
  intros d d'. unfold same_resources.
  remember (virtio_pmem_probe h (boot d)) as r eqn:Hr.
  remember (virtio_pmem_probe h (boot d')) as r' eqn:Hr'.
  subst d d'. symmetry in Hr, Hr'. revert Hr Hr'.
  probe_split h; intros Hr Hr'; subst r r'; run_model.
  all: split; [reflexivity | split; [repeat split | ] ].
  all: intros Hret; try discriminate Hret; try reflexivity.
  all: apply IS_ERR_nonzero in Hvq; rewrite Hret in Hvq; discriminate Hvq.
Qed.

(** X8. A failed attach does not stand in the way of the next one: attaching
    again to the device a failed attach left behind gives the same return
    value and the same queue, bus, region and readiness as attaching to the
    device in its original unbound state, and on success the same device
    altogether. *)
Theorem reattach_after_failure h1 h2 d :
  unbound d ->
  (virtio_pmem_probe h1 (boot d)).1 <> 0 ->
  let d1 := dev (virtio_pmem_probe h1 (boot d)).2 in
  (virtio_pmem_probe h2 (boot d1)).1 = (virtio_pmem_probe h2 (boot d)).1 /\
  same_resources (dev (virtio_pmem_probe h2 (boot d1)).2)
                 (dev (virtio_pmem_probe h2 (boot d)).2) /\
  ((virtio_pmem_probe h2 (boot d)).1 = 0 ->
   dev (virtio_pmem_probe h2 (boot d1)).2 = dev (virtio_pmem_probe h2 (boot d)).2).
Proof.
  intros (Hp & Ho & Hq & Hb & Hr) Hfail d1.
  pose proof (probe_failure_resources h1 d Hfail Hq Hb Hr Ho) as Hsame.
  fold d1 in Hsame. clearbody d1.
  destruct d as [pv dd ok q b rg], d1 as [pv1 dd1 ok1 q1 b1 rg1].
  destruct Hsame as (E1 & E2 & E3 & E4).
  cbn [driver_ok vqs buses regions] in E1, E2, E3, E4. subst ok1 q1 b1 rg1.
  apply probe_ignores_context.
Qed.

Lemma reattach_after_failure_witness :
  (virtio_pmem_probe host_shm
     (boot (dev (virtio_pmem_probe host_no_region (boot fresh_device)).2))).1 = 0.
Proof.
  destruct (reattach_after_failure host_no_region host_shm fresh_device) as [E _].
  - repeat split.
  - vm_compute. discriminate.
  - rewrite E. reflexivity.
Defined.

(** X9. Whatever the state of the device, detach leaves it with no queue and
    not ready, takes the bus named by the driver data off the registered
    buses and leaves every other bus registered.  The reset comes last: the
    device keeps its status while the bus is unregistered and the queues are
    deleted. *)
Theorem remove_final_state w :
  let w' := virtio_pmem_remove w in
  vqs (dev w') = [] /\ driver_ok (dev w') = false /\
  drvdata (dev w') = drvdata (dev w) /\
  (forall b, b ∈ buses (dev w') <-> b ∈ buses (dev w) /\ b ≠ drvdata (dev w)) /\
  exists d1 d2,
    trace w' = trace w ++ [(EvBusUnregister (drvdata (dev w)), dev w);
                           (EvDelVqs, d1); (EvResetDevice, d2)] /\
    driver_ok d1 = driver_ok (dev w) /\ driver_ok d2 = driver_ok (dev w) /\
    vqs d1 = vqs (dev w).
Proof.
  intros w'. subst w'.
  split; [reflexivity | ]. split; [reflexivity | ].
  split; [reflexivity | ].
  split.
  { intros b. unfold virtio_pmem_remove, virtio_reset_device, del_vqs,
      nvdimm_bus_unregister, call.
    cbn [dev buses set_driver_ok set_vqs set_regions set_buses].
    rewrite list_elem_of_filter. tauto. }
  eexists _, _. split; [apply remove_trace | ]. repeat split.
Qed.

(** X10. An empty range is not turned away: with a capability region of
    length zero attach still goes on to region creation, handing over the
    region's address as start and the address before it, modulo 2^64, as
    inclusive end, and succeeds or fails by the answer it gets. *)
Theorem probe_empty_range h d sr :
  get_shm_region h VIRTIO_PMEM_SHMCAP_ID_PMEM_REGION = Some sr ->
  shm_len sr = 0 ->
  is_Some (config_get h) -> kzalloc_ok h = true ->
  IS_ERR (find_single_vq h) = false -> bus_register h <> NULL ->
  exists desc p,
    EvRegionCreate desc p ∈ events (virtio_pmem_probe h (boot d)).2 /\
    res_start desc = shm_addr sr /\
    res_end desc = u64 (shm_addr sr - 1) /\
    (virtio_pmem_probe h (boot d)).1 = if p =? NULL then - ENXIO else 0.
Proof.
  destruct d as [pv dd ok q b rg].
  intros Hr Hlen Hc Ha Hq Hb.
  probe_paths h; try discriminate; try (destruct Hc; discriminate).
  all: try (apply Z.eqb_eq in Hbus; contradiction).
  all: injection Hr as ->.
  all: eexists _, _; split;
    [ do 20 (first [ apply list_elem_of_here | apply list_elem_of_further ]) | ].
  all: cbn [res_start res_end]; rewrite Hrc, Hlen, Z.add_0_r.
  all: repeat split.
Qed.

Lemma probe_empty_range_witness :
  exists desc p,
    EvRegionCreate desc p ∈ events (virtio_pmem_probe host_empty_region (boot fresh_device)).2 /\
    res_start desc = 0 /\ res_end desc = 2 ^ 64 - 1.
Proof.
  destruct (probe_empty_range host_empty_region fresh_device
              {| shm_addr := 0; shm_len := 0 |})
    as (desc & p & Hin & Hs & He & _).
  - reflexivity.
  - reflexivity.
  - eexists. reflexivity.
  - reflexivity.
  - reflexivity.
  - discriminate.
  - exists desc, p. split; [exact Hin | split; [exact Hs | exact He]].
Defined.

(** X11. The context pointer is stored in the device exactly when its
    allocation succeeded, and no exit of attach clears it again: after a
    failure past the allocation the device still points at the context, and
    before it the pointer is as it was. *)
Theorem probe_context_pointer h d :
  let d' := dev (virtio_pmem_probe h (boot d)).2 in
  (is_Some (config_get h) -> kzalloc_ok h = true -> is_Some (priv d')) /\
  (config_get h = None \/ kzalloc_ok h = false -> priv d' = priv d).
Proof.
  destruct d as [pv dd ok q b rg].
  probe_paths h.
  all: split;
    [ intros Hc Ha; try discriminate; try (destruct Hc; discriminate);
      eexists; reflexivity
    | intros [Hn|Hn]; try discriminate; reflexivity ].
Qed.
